(** * csv_to_geojson: a shallow embedding of ATMS/csv_to_geojson.py

    The script reads a CSV of postal addresses into a table, derives one
    address line per row, geocodes every line through a rate-limited
    callable, drops the rows without a fix, renames the address columns and
    writes the survivors as GeoJSON points.

    Conventions of the embedding:
    - a Python [str] is a [string] whose characters are code points below 256;
    - a table cell is a [value]; a missing cell (NaN / None) is [VNaN];
    - a finite float is carried by its exact rational value ([Q]); the script
      performs no arithmetic on floats;
    - the table is what [pd.read_csv] hands back: a header and the rows under
      it, row labels being the positions 0, 1, 2, ...;
    - the rate-limited callable [geocode] of line 23 is the external
      collaborator: a state-passing function with three observable outcomes;
    - exceptions that escape [main] are the [Err] results of a small error
      monad; console output, calls and sleeps are recorded as a trace. *)

From Stdlib Require Import List String Ascii Bool Arith ZArith QArith Lia.
From Stdlib Require Import DecimalString.
Import ListNotations.

Local Close Scope Q_scope.
Local Open Scope nat_scope.
Local Open Scope string_scope.
Local Open Scope list_scope.

Set Implicit Arguments.

(** ** Python strings *)

Module PyStr.

(** [str.isspace] on the code points below 256: TAB..CR, FS..US, SPACE,
    NEL (0x85) and NBSP (0xA0). *)
Definition isspace (c : ascii) : bool :=
  let n := nat_of_ascii c in
  (((9 <=? n) && (n <=? 13)) || ((28 <=? n) && (n <=? 32))
   || (n =? 133) || (n =? 160))%nat.

Fixpoint lstrip (s : string) : string :=
  match s with
  | EmptyString => EmptyString
  | String c r => if isspace c then lstrip r else s
  end.

(** Drops the trailing white space: a character is kept when it is not a
    space or when something is kept after it. *)
Fixpoint rstrip (s : string) : string :=
  match s with
  | EmptyString => EmptyString
  | String c r =>
      match rstrip r with
      | EmptyString => if isspace c then EmptyString else String c EmptyString
      | r' => String c r'
      end
  end.

(** [s.strip()] *)
Definition strip (s : string) : string := rstrip (lstrip s).

(** [s[:n]] *)
Fixpoint take (n : nat) (s : string) : string :=
  match n, s with
  | S n', String c r => String c (take n' r)
  | _, _ => EmptyString
  end.

Fixpoint spaces (n : nat) : string :=
  match n with
  | O => EmptyString
  | S n' => String " " (spaces n')
  end.

(** The format spec [:<n]: left-justified in a field of width [n]. *)
Definition ljust (n : nat) (s : string) : string :=
  (s ++ spaces (n - String.length s))%string.

(** [str(z)] for a Python int. *)
Definition of_int (z : Z) : string := NilZero.string_of_int (Z.to_int z).

End PyStr.

(** ** The regular expression [[, ]+] *)

Module Regex.

(** Membership in the character class [[, ]]. *)
Definition in_class (c : ascii) : bool :=
  (c =? ",")%char || (c =? " ")%char.

(** [re.sub('[, ]+', ' ', s)] scans left to right; [in_run] tells that the
    previous character belonged to a match, whose single replacement
    space has been emitted already. *)
Fixpoint sub_runs (in_run : bool) (s : string) : string :=
  match s with
  | EmptyString => EmptyString
  | String c r =>
      if in_class c then
        if in_run then sub_runs true r
        else String " " (sub_runs true r)
      else String c (sub_runs false r)
  end.

(** [.str.replace(r'[, ]+', ' ', regex=True)] on one element. *)
Definition replace_commas_spaces (s : string) : string := sub_runs false s.

End Regex.

(** ** Cells, rows and tables *)

(** A cell of a table.  [VFloat] carries a finite float, [VNaN] the missing
    value (NaN, None). *)
Inductive value : Type :=
| VStr (s : string)
| VInt (z : Z)
| VFloat (q : Q)
| VNaN.

(** [pd.isna] on a cell. *)
Definition isna (v : value) : bool :=
  match v with VNaN => true | _ => false end.

(** The exceptions that can leave [main]. *)
Inductive exn : Type :=
| KeyError (key : string)
| ValueError (msg : string).

Inductive result (A : Type) : Type :=
| Ok (a : A)
| Err (e : exn).

Arguments Ok {A} a.
Arguments Err {A} e.

Definition bind {A B : Type} (m : result A) (k : A -> result B) : result B :=
  match m with
  | Ok a => k a
  | Err e => Err e
  end.

Notation "x <- m ;; k" := (bind m (fun x => k))
  (at level 61, m at next level, right associativity).

(** A row maps column labels to cells, in column order. *)
Definition row : Type := list (string * value).

Record DataFrame : Type := mkDataFrame {
  columns : list string;
  data : list row
}.

(** [len(df)] *)
Definition len (df : DataFrame) : nat := List.length (data df).

(** [c in df.columns] *)
Definition has_column (c : string) (hdr : list string) : bool :=
  existsb (String.eqb c) hdr.

Fixpoint lookup (c : string) (r : row) : option value :=
  match r with
  | [] => None
  | (k, v) :: t => if (k =? c)%string then Some v else lookup c t
  end.

Definition cell (c : string) (r : row) : value :=
  match lookup c r with
  | Some v => v
  | None => VNaN
  end.

(** Writing the cell of column [c]: in place when the row has the column,
    as a new last column otherwise. *)
Fixpoint put (c : string) (v : value) (r : row) : row :=
  match r with
  | [] => [(c, v)]
  | (k, w) :: t =>
      if (k =? c)%string then (k, v) :: t else (k, w) :: put c v t
  end.

(** [df[c]]: the column as a list of cells, or [KeyError]. *)
Definition getitem (c : string) (df : DataFrame) : result (list value) :=
  if has_column c (columns df) then Ok (map (cell c) (data df))
  else Err (KeyError c).

(** Assignment aligns the new column on the row labels 0, 1, 2, ...: a row
    beyond the end of [vs] receives the missing value. *)
Fixpoint assign (c : string) (rows : list row) (vs : list value) : list row :=
  match rows with
  | [] => []
  | r :: rs => put c (hd VNaN vs) r :: assign c rs (tl vs)
  end.

(** The header after an assignment to column [c]: unchanged when the
    column exists, one label longer otherwise. *)
Definition with_column (c : string) (hdr : list string) : list string :=
  if has_column c hdr then hdr else hdr ++ [c].

(** [df[c] = vs] *)
Definition setitem (c : string) (vs : list value) (df : DataFrame) : DataFrame :=
  {| columns := with_column c (columns df);
     data := assign c (data df) vs |}.

(** [df[keys] = frame]: the i-th key receives the i-th column of [frame]. *)
Definition setitem_frame (keys : list string) (frame : DataFrame)
    (df : DataFrame) : DataFrame :=
  fold_left (fun d kc => setitem (fst kc) (map (cell (snd kc)) (data frame)) d)
            (combine keys (columns frame)) df.

(** [df.dropna(subset=...)]: a label of [subset] that is no column raises
    [KeyError]; a row is kept when none of its [subset] cells is missing. *)
Definition dropna (subset : list string) (df : DataFrame) : result DataFrame :=
  match find (fun c => negb (has_column c (columns df))) subset with
  | Some c => Err (KeyError c)
  | None =>
      Ok {| columns := columns df;
            data := filter (fun r => forallb (fun c => negb (isna (cell c r)))
                                             subset)
                           (data df) |}
  end.

(** A mapper of [df.rename(columns=...)], applied to one label. *)
Fixpoint rename_label (m : list (string * string)) (c : string) : string :=
  match m with
  | [] => c
  | (k, v) :: t => if (k =? c)%string then v else rename_label t c
  end.

Definition rename_row (m : list (string * string)) (r : row) : row :=
  map (fun kv => (rename_label m (fst kv), snd kv)) r.

(** [df.rename(columns=m)] *)
Definition rename (m : list (string * string)) (df : DataFrame) : DataFrame :=
  {| columns := map (rename_label m) (columns df);
     data := map (rename_row m) (data df) |}.

(** ** Series of strings *)

(** [a + b] on two series with the same labels. *)
Fixpoint series_add (a b : list string) : list string :=
  match a, b with
  | x :: a', y :: b' => (x ++ y)%string :: series_add a' b'
  | _, _ => []
  end.

(** [a + t] with a scalar [t]. *)
Definition series_add_str (a : list string) (t : string) : list string :=
  map (fun x => (x ++ t)%string) a.

(** [.str.strip()] *)
Definition str_strip (a : list string) : list string := map PyStr.strip a.

(** [.str.replace(r'[, ]+', ' ', regex=True)] *)
Definition str_replace (a : list string) : list string :=
  map Regex.replace_commas_spaces a.

(** ** Configuration (lines 14-19) *)

Definition ADDRESS_COLS : list string :=
  ["Address"; "City"; "State/Province"; "Postal Code"; "Country"].

(** ** The external collaborator and the trace of effects *)

(** What one call of the rate-limited [geocode] hands back to the script: a
    location (truthy, with both coordinates), [None], or an exception that
    derives from [Exception], carried by its message. *)
Inductive outcome : Type :=
| Located (latitude longitude : Q)
| NoMatch
| Raised (e : string).

(** An entry of [coords]: always a 2-tuple. *)
Definition coord_pair : Type := (option Q * option Q)%type.

Inductive line : Type :=
| ReadingCsv
| GeocodingStarts
| GeocodeError (e : string)
| Progress (addr : string) (c : coord_pair)
| Summary (kept total : nat)
| Saved (points : nat).

Inductive event : Type :=
| Call (addr : string) (timeout : nat)
| Print (l : line)
| Sleep (seconds : Q).

(** ** The output file *)

Record Feature : Type := mkFeature {
  properties : row;
  coordinates : list value
}.

Record FeatureCollection : Type := mkFeatureCollection {
  file_crs : string;
  features : list Feature
}.

(** A [GeoDataFrame]: the attribute columns, the active geometry column
    (named "geometry") kept apart, and the reference system. *)
Record GeoDataFrame : Type := mkGeoDataFrame {
  frame : DataFrame;
  geometry : list (value * value);
  crs : string
}.

(** [gpd.points_from_xy(x, y)] *)
Definition points_from_xy (x y : list value) : list (value * value) :=
  combine x y.

Definition drop_label (c : string) (r : row) : row :=
  filter (fun kv => negb (fst kv =? c)%string) r.

(** [gpd.GeoDataFrame(df, geometry=g, crs=c)]: the points become the column
    "geometry"; a column of [df] with that label is replaced by them. *)
Definition GeoDataFrame_of (df : DataFrame) (g : list (value * value))
    (c : string) : GeoDataFrame :=
  {| frame := {| columns := filter (fun k => negb (k =? "geometry")%string)
                                   (columns df);
                 data := map (drop_label "geometry") (data df) |};
     geometry := g;
     crs := c |}.

(** [not df.columns.is_unique]: some label occurs twice. *)
Fixpoint has_duplicates (hdr : list string) : bool :=
  match hdr with
  | [] => false
  | c :: t => has_column c t || has_duplicates t
  end.

Definition duplicated_column_names : string :=
  "GeoDataFrame cannot contain duplicated column names.".

(** [gdf.to_file(..., driver='GeoJSON')]: a frame with a label twice is
    refused with [ValueError]; otherwise one feature per row is written, its
    properties the attribute cells and its coordinates the point's [x, y].
    Failures of the file system are outside the embedding. *)
Definition to_file (gdf : GeoDataFrame) : result FeatureCollection :=
  if has_duplicates (columns (frame gdf))
  then Err (ValueError duplicated_column_names)
  else
    Ok {| file_crs := crs gdf;
          features := map (fun rp => {| properties := fst rp;
                                        coordinates := [fst (snd rp);
                                                        snd (snd rp)] |})
                          (combine (data (frame gdf)) (geometry gdf)) |}.

(** ** The script *)

Definition cell_of_coord (o : option Q) : value :=
  match o with
  | Some q => VFloat q
  | None => VNaN
  end.

(** [pd.DataFrame(coords, columns=['lat', 'lon'])] *)
Definition coords_frame (coords : list coord_pair) : DataFrame :=
  {| columns := ["lat"; "lon"];
     data := map (fun c => [("lat", cell_of_coord (fst c));
                            ("lon", cell_of_coord (snd c))]) coords |}.

(** Lines 59-65. *)
Definition rename_map : list (string * string) :=
  [("Address", "address");
   ("City", "city");
   ("State/Province", "province");
   ("Postal Code", "postalcode");
   ("Country", "country")].

(** The addresses handed to the service, read off a trace. *)
Definition calls (ev : list event) : list string :=
  flat_map (fun e => match e with Call a _ => [a] | _ => [] end) ev.

(** A valid fix: both coordinates present. *)
Definition both_present (c : coord_pair) : bool :=
  match c with
  | (Some _, Some _) => true
  | _ => false
  end.

Section Script.

(** [str(x)] of a finite float, Python's shortest round-trip rendering. *)
Variable float_repr : Q -> string.

(** The world behind the rate-limited callable of line 23, and the callable
    itself, [geocode(addr, timeout=t)].  The script sees the [outcome] of a
    call; the loop is written over any callable with these outcomes, and
    [Limiter.geocode] below is the one that line 23 builds. *)
Variable service : Type.
Variable geocode : string -> nat -> service -> outcome * service.

(** [str(v)] on a cell; under [.astype(str)] a missing cell of an object
    or float column reads "nan". *)
Definition str_of (v : value) : string :=
  match v with
  | VStr s => s
  | VInt z => PyStr.of_int z
  | VFloat q => float_repr q
  | VNaN => "nan"
  end.

(** [.astype(str)] *)
Definition astype_str (a : list value) : list string := map str_of a.

(** Lines 31-36: the address line of every row. *)
Definition full_address (df : DataFrame) : result (list string) :=
  address <- getitem "Address" df ;;
  city <- getitem "City" df ;;
  state <- getitem "State/Province" df ;;
  country <- getitem "Country" df ;;
  Ok (str_replace
        (series_add
           (series_add_str
              (series_add
                 (series_add_str
                    (series_add
                       (series_add_str (str_strip (astype_str address)) ", ")
                       (str_strip (astype_str city)))
                    ", ")
                 (str_strip (astype_str state)))
              ", ")
           (str_strip (astype_str country)))).

(** Line 41: [pd.isna(addr) or addr.strip() == '']; [None] is a missing
    address. *)
Definition is_blank (addr : option string) : bool :=
  match addr with
  | None => true
  | Some a => (PyStr.strip a =? "")%string
  end.

(** Lines 41-50: one iteration, giving the pair appended to [coords], the
    effects of the iteration in order, and the world after it. *)
Definition geocode_row (addr : option string) (w : service)
  : coord_pair * list event * service :=
  match addr with
  | None => ((None, None), [], w)
  | Some a =>
      if (PyStr.strip a =? "")%string then ((None, None), [], w)
      else
        let (o, w') := geocode a 15 w in
        let (c, logged) :=
          match o with
          | Located lat lon => ((Some lat, Some lon), [])
          | NoMatch => ((None, None), [])
          | Raised e => ((None, None), [Print (GeocodeError e)])
          end in
        (c,
         Call a 15 :: logged
           ++ [Print (Progress (PyStr.ljust 50 (PyStr.take 50 a)) c);
               Sleep 1.2],
         w')
  end.

(** Lines 39-50. *)
Fixpoint geocode_loop (addrs : list (option string)) (w : service)
  : list coord_pair * list event * service :=
  match addrs with
  | [] => ([], [], w)
  | a :: rest =>
      let '(c, ev, w1) := geocode_row a w in
      let '(cs, evs, w2) := geocode_loop rest w1 in
      (c :: cs, ev ++ evs, w2)
  end.

(** Lines 26-77, from the table that [pd.read_csv] returned.  The loop of
    line 40 runs over the column stored at line 31, that is over the
    strings just computed; [df.longitude] and [df.latitude] of line 72 read
    the columns of these labels. *)
Definition main (df : DataFrame) (w : service)
  : result (FeatureCollection * list event * service) :=
  addrs <- full_address df ;;
  let df := setitem "full_address" (map VStr addrs) df in
  let '(coords, loop_events, w') := geocode_loop (map Some addrs) w in
  let df := setitem_frame ["latitude"; "longitude"] (coords_frame coords) df in
  df <- dropna ["latitude"; "longitude"] df ;;
  let summary := Print (Summary (len df) (List.length coords)) in
  let df := rename (filter (fun kv => has_column (fst kv) (columns df))
                           rename_map) df in
  lon <- getitem "longitude" df ;;
  lat <- getitem "latitude" df ;;
  let gdf := GeoDataFrame_of df (points_from_xy lon lat) "EPSG:4326" in
  file <- to_file gdf ;;
  Ok (file,
      [Print ReadingCsv; Print GeocodingStarts] ++ loop_events
        ++ [summary; Print (Saved (len (frame gdf)))],
      w').

End Script.

(** ** The pipeline read row by row

    What lines 31-76 do to a single row; the lemmas below show that [main]
    computes exactly this on every row. *)

Section RowWise.

Variable float_repr : Q -> string.

(** The address line of a row (lines 32-36). *)
Definition address_line (r : row) : string :=
  Regex.replace_commas_spaces
    ((((((PyStr.strip (str_of float_repr (cell "Address" r)) ++ ", ")
         ++ PyStr.strip (str_of float_repr (cell "City" r))) ++ ", ")
       ++ PyStr.strip (str_of float_repr (cell "State/Province" r))) ++ ", ")
     ++ PyStr.strip (str_of float_repr (cell "Country" r)))%string.

(** The columns that lines 32-35 read. *)
Definition columns_read : list string :=
  ["Address"; "City"; "State/Province"; "Country"].

(** The row after lines 31 and 52. *)
Definition enrich (r : row) (c : coord_pair) : row :=
  put "longitude" (cell_of_coord (snd c))
    (put "latitude" (cell_of_coord (fst c))
       (put "full_address" (VStr (address_line r)) r)).

(** The table after line 52, [coords] being the list built by the loop. *)
Definition attached (df : DataFrame) (coords : list coord_pair) : DataFrame :=
  setitem_frame ["latitude"; "longitude"] (coords_frame coords)
    (setitem "full_address" (map VStr (map address_line (data df))) df).

(** The mapper of line 67 for a table whose header is [hdr]. *)
Definition present_aliases (hdr : list string) : list (string * string) :=
  filter (fun kv => has_column (fst kv) hdr) rename_map.

(** The attribute labels of the frame handed to [to_file], for a table
    whose header is [hdr]: the header with the derived columns, renamed by
    line 67, without the geometry column. *)
Definition export_header (hdr : list string) : list string :=
  filter (fun k => negb (k =? "geometry")%string)
         (map (rename_label (present_aliases hdr))
              (with_column "longitude"
                 (with_column "latitude" (with_column "full_address" hdr)))).

(** The feature written for a surviving row. *)
Definition feature_of (hdr : list string) (r : row) (c : coord_pair) : Feature :=
  {| properties :=
       drop_label "geometry" (rename_row (present_aliases hdr) (enrich r c));
     coordinates := [cell_of_coord (snd c); cell_of_coord (fst c)] |}.

End RowWise.

(** A label that the mapper [m] neither consumes nor produces. *)
Definition untouched (m : list (string * string)) (c : string) : Prop :=
  forall k, rename_label m k = c <-> k = c.

(** The rows that pass line 55, each with its geocoding result. *)
Definition survivors (rows : list row) (coords : list coord_pair)
  : list (row * coord_pair) :=
  filter (fun rc => both_present (snd rc)) (combine rows coords).


(** Column preservation for one row [r] of a table with header [hdr] and the
    feature [f] written for it: every cell of a column whose label is not in
    [exempt] is a property of [f], under the lowercase alias for a
    canonical address column and under its own label otherwise. *)
Definition preserved_in (exempt hdr : list string) (r : row) (f : Feature)
  : Prop :=
  forall k v,
    In k hdr -> In (k, v) r -> ~ In k exempt ->
    (forall a, In (k, a) rename_map -> In (a, v) (properties f))
    /\ (~ In k ADDRESS_COLS -> In (k, v) (properties f)).

(** ** The rate limiter of line 23

    [geocode = RateLimiter(geocoder.geocode, min_delay_seconds=1)] leaves
    the other settings of geopy's [RateLimiter] at their defaults:
    [max_retries=2], [error_wait_seconds=5.0], [swallow_exceptions=True],
    [return_value_on_exception=None].  The spacing of the requests by
    [min_delay_seconds] needs a clock and is not part of the embedding. *)

(** What one request to the geocoding service gives: a location, no match,
    an exception that derives from [GeocoderServiceError] (time-out,
    service unavailable, quota, ...), or any other exception. *)
Inductive reply : Type :=
| Found (latitude longitude : Q)
| NotFound
| ServiceError (e : string)
| OtherError (e : string).

Module Limiter.

(** The world of the rate-limited callable: the service behind it, the
    addresses requested from the service so far, and the pauses made after
    failed requests. *)
Record world (S : Type) : Type := mkWorld {
  backend : S;
  requests : list string;
  error_waits : list Q
}.

Arguments mkWorld {S} backend requests error_waits.
Arguments backend {S} w.
Arguments requests {S} w.
Arguments error_waits {S} w.

Section Wrapper.

Variable S : Type.

(** [geocoder.geocode(addr, timeout=t)], the wrapped function. *)
Variable lookup : string -> nat -> S -> reply * S.

(** [RateLimiter.__call__] with [retries] tries left after this one: the
    result of the request is handed back, an exception that is no service
    error is raised again, and a service error leads to another request
    after a pause of [error_wait_seconds], or, once the tries are used up,
    is swallowed and [return_value_on_exception] handed back. *)
Fixpoint attempt (retries : nat) (addr : string) (timeout : nat) (w : world S)
  : outcome * world S :=
  let (r, b) := lookup addr timeout (backend w) in
  let sent := requests w ++ [addr] in
  match r with
  | Found lat lon => (Located lat lon, mkWorld b sent (error_waits w))
  | NotFound => (NoMatch, mkWorld b sent (error_waits w))
  | OtherError e => (Raised e, mkWorld b sent (error_waits w))
  | ServiceError e =>
      match retries with
      | O => (NoMatch, mkWorld b sent (error_waits w))
      | Datatypes.S n =>
          attempt n addr timeout (mkWorld b sent (error_waits w ++ [5%Q]))
      end
  end.

(** [RateLimiter(lookup, max_retries=n)] *)
Definition RateLimiter (max_retries : nat)
  : string -> nat -> world S -> outcome * world S :=
  attempt max_retries.

(** Line 23. *)
Definition geocode : string -> nat -> world S -> outcome * world S :=
  RateLimiter 2.

End Wrapper.

End Limiter.

(** ** A mock service and sample tables *)

Module Mock.

(** Floats are never rendered in the samples. *)
Definition float_repr (q : Q) : string := "<float>".

(** A scripted geocoder: the world is the list of outcomes still to be
    played, [NoMatch] once it is exhausted. *)
Definition geocode (addr : string) (timeout : nat) (w : list outcome)
  : outcome * list outcome :=
  match w with
  | [] => (NoMatch, [])
  | o :: rest => (o, rest)
  end.

Definition springfield_row : row :=
  [("Address", VStr "1 Main St"); ("City", VStr "Springfield");
   ("State/Province", VStr "IL"); ("Postal Code", VInt 62701);
   ("Country", VStr "USA")].

Definition springfield : DataFrame :=
  {| columns := ADDRESS_COLS; data := [springfield_row] |}.

(** The same table exported without its "Postal Code" column. *)
Definition no_postal_code : DataFrame :=
  {| columns := ["Address"; "City"; "State/Province"; "Country"];
     data := [[("Address", VStr "1 Main St"); ("City", VStr "Springfield");
               ("State/Province", VStr "IL"); ("Country", VStr "USA")]] |}.

(** A table with one more column, labelled "geometry". *)
Definition kiosk_row : row :=
  springfield_row ++ [("geometry", VStr "kiosk")].

Definition with_geometry : DataFrame :=
  {| columns := ADDRESS_COLS ++ ["geometry"]; data := [kiosk_row] |}.

(** Three addresses; the lookup of the second one raises. *)
Definition three_rows : DataFrame :=
  {| columns := ["Address"; "City"; "State/Province"; "Country"];
     data := map (fun a => [("Address", VStr a); ("City", VStr "Springfield");
                            ("State/Province", VStr "IL");
                            ("Country", VStr "USA")])
                 ["1 Main St"; "2 Main St"; "3 Main St"] |}.

Definition second_fails : list outcome :=
  [Located 39.78 (-89.65); Raised "timed out"; Located 39.8 (-89.6)].

(** A scripted service behind the rate limiter: the world is the list of
    replies still to be played, [NotFound] once it is exhausted. *)
Definition lookup (addr : string) (timeout : nat) (w : list reply)
  : reply * list reply :=
  match w with
  | [] => (NotFound, [])
  | r :: rest => (r, rest)
  end.

(** A service that times out three times in a row. *)
Definition unreachable : Limiter.world (list reply) :=
  Limiter.mkWorld [ServiceError "timed out"; ServiceError "timed out";
                   ServiceError "timed out"] [] [].

(** The service finds the address of the samples. *)
Definition one_fix : list outcome := [Located 39.78 (-89.65)].

Definition run (df : DataFrame) (w : list outcome) :=
  main float_repr geocode df w.

(** What the run over [springfield] writes and does. *)
Definition springfield_feature : Feature :=
  {| properties :=
       [("address", VStr "1 Main St"); ("city", VStr "Springfield");
        ("province", VStr "IL"); ("postalcode", VInt 62701);
        ("country", VStr "USA");
        ("full_address", VStr "1 Main St Springfield IL USA");
        ("latitude", VFloat 39.78); ("longitude", VFloat (-89.65))];
     coordinates := [VFloat (-89.65); VFloat 39.78] |}.

Definition springfield_file : FeatureCollection :=
  {| file_crs := "EPSG:4326"; features := [springfield_feature] |}.

Definition springfield_trace : list event :=
  [Print ReadingCsv; Print GeocodingStarts;
   Call "1 Main St Springfield IL USA" 15;
   Print (Progress "1 Main St Springfield IL USA                      "
                   (Some 39.78%Q, Some (-89.65)%Q));
   Sleep 1.2;
   Print (Summary 1 1); Print (Saved 1)].

(** The feature written for [with_geometry]. *)
Definition kiosk_feature : Feature := springfield_feature.

(** A row whose City cell is missing. *)
Definition missing_city_row : row :=
  [("Address", VStr "1 Main St"); ("City", VNaN);
   ("State/Province", VStr "IL"); ("Country", VStr "USA")].

End Mock.

(** ** Reading a trace and an address *)

(** The addresses that reach the service: those of the rows that line 41
    does not skip, in row order. *)
Definition sent (addrs : list (option string)) : list string :=
  flat_map (fun a => match a with
                     | Some s => if is_blank a then [] else [s]
                     | None => []
                     end) addrs.

(** The pauses of a trace, in seconds. *)
Definition sleeps (ev : list event) : list Q :=
  flat_map (fun e => match e with Sleep q => [q] | _ => [] end) ev.

(** The timeouts of the calls of a trace. *)
Definition timeouts (ev : list event) : list nat :=
  flat_map (fun e => match e with Call _ t => [t] | _ => [] end) ev.

(** White space, comma or space: the characters that line 36 and line 41
    together reduce to nothing. *)
Definition white_or_separator (c : ascii) : bool :=
  PyStr.isspace c || Regex.in_class c.

(** ** The replacement of comma and space runs *)

(** After one pass no comma is left and no two spaces are adjacent, in
    whichever state the scan starts. *)
Lemma sub_runs_fixed (s : string) :
  forall b, Regex.sub_runs b (Regex.sub_runs b s) = Regex.sub_runs b s.
Proof.
  induction s as [|c r IH]; intros b; simpl; [reflexivity|].
  destruct (Regex.in_class c) eqn:Hc.
  - destruct b; simpl.
    + apply IH.
    + now rewrite IH.
  - simpl. rewrite Hc. now rewrite IH.
Qed.

(** C7. Collapsing the runs of commas and spaces is idempotent: applying the
    replacement to an already replaced string changes nothing. *)
Theorem normalize_idempotent (s : string) :
  Regex.replace_commas_spaces (Regex.replace_commas_spaces s)
  = Regex.replace_commas_spaces s.
Proof.
  unfold Regex.replace_commas_spaces. apply sub_runs_fixed.
Qed.

(** ** Rows and tables *)

Lemma has_column_In c hdr : has_column c hdr = true <-> In c hdr.
Proof.
  unfold has_column. rewrite existsb_exists. split.
  - intros [x [Hx He]]. apply String.eqb_eq in He. now subst.
  - intros H. exists c. split; [assumption|apply String.eqb_refl].
Qed.

Lemma cell_put_same c v r : cell c (put c v r) = v.
Proof.
  unfold cell. induction r as [|[k w] t IH]; simpl.
  - now rewrite String.eqb_refl.
  - destruct (k =? c)%string eqn:E; simpl; rewrite E; [reflexivity|exact IH].
Qed.

Lemma cell_put_other c c' v r : c <> c' -> cell c (put c' v r) = cell c r.
Proof.
  intros Hne. unfold cell. induction r as [|[k w] t IH]; simpl.
  - destruct (c' =? c)%string eqn:E; [|reflexivity].
    apply String.eqb_eq in E. congruence.
  - destruct (k =? c')%string eqn:E; simpl.
    + apply String.eqb_eq in E. subst k.
      destruct (c' =? c)%string eqn:E'; [|reflexivity].
      apply String.eqb_eq in E'. congruence.
    + destruct (k =? c)%string; [reflexivity|exact IH].
Qed.


Lemma assign_map c (f : row -> value) rows :
  assign c rows (map f rows) = map (fun r => put c (f r) r) rows.
Proof. induction rows as [|r rs IH]; simpl; [reflexivity|now rewrite IH]. Qed.

Lemma assign_zip {B : Type} c (F : row * B -> row) (h : B -> value) rows :
  forall bs : list B,
    assign c (map F (combine rows bs)) (map h bs)
    = map (fun rb => put c (h (snd rb)) (F rb)) (combine rows bs).
Proof.
  induction rows as [|r rs IH]; intros [|b bs]; simpl; try reflexivity.
  now rewrite IH.
Qed.

Lemma series_add_map {A : Type} (f g : A -> string) (l : list A) :
  series_add (map f l) (map g l) = map (fun x => (f x ++ g x)%string) l.
Proof. induction l; simpl; [reflexivity|now f_equal]. Qed.

Lemma assign_over {B : Type} c (G : row -> row) (h : B -> value) rows :
  forall bs : list B,
    List.length bs = List.length rows ->
    assign c (map G rows) (map h bs)
    = map (fun rb => put c (h (snd rb)) (G (fst rb))) (combine rows bs).
Proof.
  induction rows as [|r rs IH]; intros [|b bs]; simpl; intros H;
    try reflexivity; try discriminate.
  now rewrite IH by lia.
Qed.

Lemma has_column_with_same c hdr : has_column c (with_column c hdr) = true.
Proof.
  unfold with_column. destruct (has_column c hdr) eqn:E; [exact E|].
  unfold has_column. rewrite existsb_app. simpl.
  now rewrite String.eqb_refl, orb_true_r.
Qed.

Lemma has_column_with_other k c hdr :
  k <> c -> has_column k (with_column c hdr) = has_column k hdr.
Proof.
  intros Hne. unfold with_column. destruct (has_column c hdr); [reflexivity|].
  unfold has_column. rewrite existsb_app. simpl.
  apply String.eqb_neq in Hne. now rewrite Hne, !orb_false_r.
Qed.

(** ** Renaming *)

Lemma rename_label_cases m k :
  rename_label m k = k \/ In (k, rename_label m k) m.
Proof.
  induction m as [|[k' a] t IH]; simpl; [now left|].
  destruct (k' =? k)%string eqn:E.
  - apply String.eqb_eq in E. subst. right. now left.
  - destruct IH as [IH|IH]; [now left|right; now right].
Qed.

Lemma untouched_present hdr c :
  ~ In c (map fst rename_map) -> ~ In c (map snd rename_map) ->
  untouched (present_aliases hdr) c.
Proof.
  intros Hk Ha k. unfold present_aliases.
  destruct (rename_label_cases (filter (fun kv => has_column (fst kv) hdr) rename_map) k)
    as [E|Hin].
  - rewrite E. tauto.
  - apply filter_In in Hin. destruct Hin as [Hin _]. split; intros H.
    + exfalso. apply Ha. rewrite H in Hin.
      change c with (snd (k, c)). now apply in_map.
    + exfalso. apply Hk. subst k.
      change c with (fst (c, rename_label
        (filter (fun kv => has_column (fst kv) hdr) rename_map) c)).
      now apply in_map.
Qed.

Lemma cell_rename_row m c r : untouched m c -> cell c (rename_row m r) = cell c r.
Proof.
  intros U. unfold cell. induction r as [|[k v] t IH]; simpl; [reflexivity|].
  destruct (k =? c)%string eqn:E.
  - apply String.eqb_eq in E. apply (proj2 (U k)) in E. rewrite E.
    now rewrite String.eqb_refl.
  - destruct (rename_label m k =? c)%string eqn:E'; [|exact IH].
    apply String.eqb_eq in E'. apply (proj1 (U k)) in E'.
    apply String.eqb_neq in E. contradiction.
Qed.

Lemma has_column_rename m c hdr :
  untouched m c ->
  has_column c (map (rename_label m) hdr) = has_column c hdr.
Proof.
  intros U. unfold has_column. induction hdr as [|k t IH]; simpl; [reflexivity|].
  rewrite IH. f_equal.
  destruct (c =? k)%string eqn:E.
  - apply String.eqb_eq in E. subst k.
    assert (H : rename_label m c = c) by now apply (proj2 (U c)).
    rewrite H. apply String.eqb_refl.
  - apply String.eqb_neq. intros H. symmetry in H. apply (proj1 (U k)) in H.
    apply String.eqb_neq in E. congruence.
Qed.

Lemma present_aliases_with c hdr :
  ~ In c (map fst rename_map) ->
  present_aliases (with_column c hdr) = present_aliases hdr.
Proof.
  intros Hk. unfold present_aliases. apply filter_ext_in.
  intros [k a] Hin. simpl. apply has_column_with_other.
  intros ->. apply Hk. change c with (fst (c, a)). now apply in_map.
Qed.

(** ** The address formatter *)

Section FormatterFacts.

Variable float_repr : Q -> string.

(** With the four columns it reads, the formatter returns the address line
    of every row. *)
Lemma full_address_ok df :
  forallb (fun c => has_column c (columns df)) columns_read = true ->
  full_address float_repr df = Ok (map (address_line float_repr) (data df)).
Proof.
  simpl. rewrite !andb_true_iff. intros (Ha & Hc & Hs & Hk & _).
  unfold full_address, getitem. rewrite Ha, Hc, Hs, Hk. simpl.
  unfold str_replace, str_strip, astype_str, series_add_str.
  repeat (rewrite ?map_map, ?series_add_map).
  reflexivity.
Qed.

(** Without one of them it raises [KeyError] for the first one missing. *)
Lemma full_address_err df :
  forallb (fun c => has_column c (columns df)) columns_read = false ->
  exists c, In c columns_read /\ has_column c (columns df) = false
            /\ full_address float_repr df = Err (KeyError c).
Proof.
  unfold full_address, getitem. simpl.
  destruct (has_column "Address" (columns df)) eqn:Ha;
    [|intros _; exists "Address"; simpl; auto].
  destruct (has_column "City" (columns df)) eqn:Hc;
    [|intros _; exists "City"; simpl; auto].
  destruct (has_column "State/Province" (columns df)) eqn:Hs;
    [|intros _; exists "State/Province"; simpl; auto 6].
  destruct (has_column "Country" (columns df)) eqn:Hk;
    [|intros _; exists "Country"; simpl; auto 6].
  discriminate.
Qed.

End FormatterFacts.

(** ** The geocoding loop *)

Section LoopFacts.

Variable service : Type.
Variable geocode : string -> nat -> service -> outcome * service.

Local Abbreviation geocode_row := (geocode_row geocode).
Local Abbreviation geocode_loop := (geocode_loop geocode).

Lemma geocode_loop_cons a rest w :
  geocode_loop (a :: rest) w =
  let '(c, ev, w1) := geocode_row a w in
  let '(cs, evs, w2) := geocode_loop rest w1 in
  (c :: cs, ev ++ evs, w2).
Proof. reflexivity. Qed.

(** The loop over a concatenation is the loop over the first part followed
    by the loop over the second, started in the world the first left. *)
Lemma geocode_loop_app pre post :
  forall w,
    geocode_loop (pre ++ post) w =
    let '(c1, e1, w1) := geocode_loop pre w in
    let '(c2, e2, w2) := geocode_loop post w1 in
    (c1 ++ c2, e1 ++ e2, w2).
Proof.
  induction pre as [|a pre IH]; intros w.
  - simpl. destruct (geocode_loop post w) as [[c2 e2] w2]. reflexivity.
  - rewrite <- app_comm_cons, !geocode_loop_cons.
    destruct (geocode_row a w) as [[c ev] w1].
    rewrite IH.
    destruct (geocode_loop pre w1) as [[c1 e1] w2].
    destruct (geocode_loop post w2) as [[c2 e2] w3].
    now rewrite app_assoc.
Qed.

Lemma geocode_loop_length addrs :
  forall w, List.length (fst (fst (geocode_loop addrs w))) = List.length addrs.
Proof.
  induction addrs as [|a rest IH]; intros w; [reflexivity|].
  rewrite geocode_loop_cons.
  destruct (geocode_row a w) as [[c ev] w1].
  specialize (IH w1).
  destruct (geocode_loop rest w1) as [[cs evs] w2].
  simpl in *. now rewrite IH.
Qed.

Lemma geocode_row_blank a w :
  is_blank a = true -> geocode_row a w = ((None, None), [], w).
Proof.
  destruct a as [a|]; simpl; [|reflexivity].
  intros ->. reflexivity.
Qed.

Lemma geocode_row_pair a w :
  let c := fst (fst (geocode_row a w)) in
  both_present c = true \/ c = (None, None).
Proof.
  destruct a as [a|]; simpl; [|now right].
  destruct (PyStr.strip a =? "")%string; [now right|].
  destruct (geocode a 15 w) as [[lat lon| |e] w1]; simpl; auto.
Qed.

(** An iteration whose call does not hand back a location appends
    (None, None); the callable was invoked once for the row, an exception
    that came out of it is printed, and the loop goes on with the rows after
    it from the world the call left. *)
Lemma failed_call_recovered pre a rest w :
  is_blank (Some a) = false ->
  (forall lat lon,
      fst (geocode a 15 (snd (geocode_loop pre w))) <> Located lat lon) ->
  exists ev,
    geocode_loop (pre ++ Some a :: rest) w
    = (let '(c2, e2, w3) :=
         geocode_loop rest (snd (geocode a 15 (snd (geocode_loop pre w)))) in
       (fst (fst (geocode_loop pre w)) ++ (None, None) :: c2,
        snd (fst (geocode_loop pre w)) ++ ev ++ e2, w3))
    /\ calls ev = [a]
    /\ (forall e, fst (geocode a 15 (snd (geocode_loop pre w))) = Raised e ->
                  In (Print (GeocodeError e)) ev).
Proof.
  intros Hblank Hfail. rewrite geocode_loop_app.
  destruct (geocode_loop pre w) as [[c1 e1] w1]. cbn [fst snd] in *.
  rewrite geocode_loop_cons. unfold geocode_row.
  cbn [is_blank] in Hblank. rewrite Hblank.
  destruct (geocode a 15 w1) as [o w2]. cbn [fst snd] in *.
  destruct o as [lat lon| |e]; cbv beta iota;
    destruct (geocode_loop rest w2) as [[c2 e2] w3].
  - exfalso. now apply (Hfail lat lon).
  - eexists. split; [reflexivity|]. split; [reflexivity|]. discriminate.
  - eexists. split; [reflexivity|]. split; [reflexivity|].
    intros e' [= <-]. right. now left.
Qed.

End LoopFacts.

(** ** The pipeline, stage by stage *)

Section PipelineFacts.

Variable float_repr : Q -> string.
Variable service : Type.
Variable geocode : string -> nat -> service -> outcome * service.

Lemma attached_columns df coords :
  columns (attached float_repr df coords)
  = with_column "longitude"
      (with_column "latitude" (with_column "full_address" (columns df))).
Proof. reflexivity. Qed.

(** Line 52 gives every row the result found for it. *)
Lemma attached_data df coords :
  List.length coords = len df ->
  data (attached float_repr df coords)
  = map (fun rc => enrich float_repr (fst rc) (snd rc)) (combine (data df) coords).
Proof.
  intros Hlen. unfold attached, setitem_frame, coords_frame. simpl.
  rewrite !map_map.
  change (map (fun x : option Q * option Q =>
                 cell "lat" [("lat", cell_of_coord (fst x));
                             ("lon", cell_of_coord (snd x))]) coords)
    with (map (fun c : coord_pair => cell_of_coord (fst c)) coords).
  change (map (fun x : option Q * option Q =>
                 cell "lon" [("lat", cell_of_coord (fst x));
                             ("lon", cell_of_coord (snd x))]) coords)
    with (map (fun c : coord_pair => cell_of_coord (snd c)) coords).
  rewrite (assign_map "full_address"
             (fun r => VStr (address_line float_repr r)) (data df)).
  rewrite (assign_over "latitude"
             (fun r => put "full_address" (VStr (address_line float_repr r)) r)
             (fun c : coord_pair => cell_of_coord (fst c)) (data df) coords Hlen).
  rewrite assign_zip. reflexivity.
Qed.

Lemma enrich_latitude r c :
  cell "latitude" (enrich float_repr r c) = cell_of_coord (fst c).
Proof.
  unfold enrich. rewrite cell_put_other by discriminate. apply cell_put_same.
Qed.

Lemma enrich_longitude r c :
  cell "longitude" (enrich float_repr r c) = cell_of_coord (snd c).
Proof. unfold enrich. apply cell_put_same. Qed.

(** Line 55 keeps the rows whose result has both coordinates. *)
Lemma dropna_attached df coords :
  List.length coords = len df ->
  dropna ["latitude"; "longitude"] (attached float_repr df coords)
  = Ok {| columns := columns (attached float_repr df coords);
          data := map (fun rc => enrich float_repr (fst rc) (snd rc))
                      (survivors (data df) coords) |}.
Proof.
  intros Hlen. unfold dropna. rewrite attached_columns. cbn [find].
  rewrite (has_column_with_other (c := "longitude")) by discriminate.
  rewrite !has_column_with_same. cbn [negb].
  rewrite attached_data by assumption. rewrite filter_map_swap.
  do 3 f_equal. unfold survivors. apply filter_ext. intros [r c]. simpl.
  rewrite enrich_latitude, enrich_longitude.
  destruct c as [[lat|] [lon|]]; reflexivity.
Qed.

Lemma combine3_map {A B C D : Type} (f : A -> B) (g : A -> C) (h : A -> D) l :
  combine (map f l) (combine (map g l) (map h l))
  = map (fun x => (f x, (g x, h x))) l.
Proof. induction l; simpl; [reflexivity|now f_equal]. Qed.

Lemma present_aliases_attached df coords :
  present_aliases (columns (attached float_repr df coords))
  = present_aliases (columns df).
Proof.
  rewrite attached_columns.
  rewrite !present_aliases_with; [reflexivity| | |];
    simpl; intuition discriminate.
Qed.

Lemma untouched_latitude hdr : untouched (present_aliases hdr) "latitude".
Proof. apply untouched_present; simpl; intuition discriminate. Qed.

Lemma untouched_longitude hdr : untouched (present_aliases hdr) "longitude".
Proof. apply untouched_present; simpl; intuition discriminate. Qed.

(** [main] on a table with the four columns it reads: the loop runs over the
    address lines; then either the renaming has produced a label twice and
    the export is refused, or the survivors become the features and the
    trace is the two headings, the loop's effects, the summary and the
    confirmation. *)
Lemma main_outcome df w :
  forallb (fun c => has_column c (columns df)) columns_read = true ->
  main float_repr geocode df w =
  if has_duplicates (export_header (columns df))
  then Err (ValueError duplicated_column_names)
  else
    let '(coords, loop_events, w') :=
      geocode_loop geocode (map Some (map (address_line float_repr) (data df))) w in
    let kept := survivors (data df) coords in
    Ok ({| file_crs := "EPSG:4326";
           features := map (fun rc => feature_of float_repr (columns df)
                                                 (fst rc) (snd rc)) kept |},
        [Print ReadingCsv; Print GeocodingStarts] ++ loop_events
          ++ [Print (Summary (List.length kept) (List.length coords));
              Print (Saved (List.length kept))],
        w').
Proof.
  intros Hcols. unfold main.
  rewrite (full_address_ok float_repr df Hcols). cbn [bind].
  pose proof (geocode_loop_length geocode
                (map Some (map (address_line float_repr) (data df))) w) as Hlen.
  destruct (geocode_loop geocode
              (map Some (map (address_line float_repr) (data df))) w)
    as [[coords loop_events] w'].
  simpl in Hlen. rewrite !length_map in Hlen.
  change (setitem_frame ["latitude"; "longitude"] (coords_frame coords)
            (setitem "full_address"
               (map VStr (map (address_line float_repr) (data df))) df))
    with (attached float_repr df coords).
  rewrite dropna_attached by exact Hlen. cbn [bind columns data].
  change (filter (fun kv : string * string =>
                    has_column (fst kv) (columns (attached float_repr df coords)))
                 rename_map)
    with (present_aliases (columns (attached float_repr df coords))).
  rewrite present_aliases_attached.
  unfold getitem. cbn [columns data rename].
  rewrite (has_column_rename _ (untouched_longitude (columns df))).
  rewrite (has_column_rename _ (untouched_latitude (columns df))).
  rewrite attached_columns.
  rewrite (has_column_with_other (k := "latitude") (c := "longitude"))
    by discriminate.
  rewrite !has_column_with_same. cbn [bind].
  unfold to_file, GeoDataFrame_of, points_from_xy, len.
  cbn [crs frame geometry data columns].
  unfold rename. cbn [data columns].
  fold (export_header (columns df)).
  destruct (has_duplicates (export_header (columns df))); [reflexivity|].
  cbn [bind].
  rewrite !map_map, combine3_map, map_map, !length_map.
  do 3 f_equal. f_equal. apply map_ext. intros [r c]. cbn [fst snd].
  unfold feature_of. f_equal.
  rewrite (cell_rename_row _ (untouched_longitude (columns df))).
  rewrite (cell_rename_row _ (untouched_latitude (columns df))).
  now rewrite enrich_latitude, enrich_longitude.
Qed.

Lemma main_spec df w :
  forallb (fun c => has_column c (columns df)) columns_read = true ->
  has_duplicates (export_header (columns df)) = false ->
  main float_repr geocode df w =
  let '(coords, loop_events, w') :=
    geocode_loop geocode (map Some (map (address_line float_repr) (data df))) w in
  let kept := survivors (data df) coords in
  Ok ({| file_crs := "EPSG:4326";
         features := map (fun rc => feature_of float_repr (columns df)
                                               (fst rc) (snd rc)) kept |},
      [Print ReadingCsv; Print GeocodingStarts] ++ loop_events
        ++ [Print (Summary (List.length kept) (List.length coords));
            Print (Saved (List.length kept))],
      w').
Proof.
  intros Hcols Hdup. rewrite (main_outcome df w Hcols), Hdup. reflexivity.
Qed.

(** With the four columns and a label twice after the renaming, the export
    is refused. *)
Lemma main_value_error df w :
  forallb (fun c => has_column c (columns df)) columns_read = true ->
  has_duplicates (export_header (columns df)) = true ->
  main float_repr geocode df w = Err (ValueError duplicated_column_names).
Proof.
  intros Hcols Hdup. rewrite (main_outcome df w Hcols), Hdup. reflexivity.
Qed.

(** [main] returns whenever the four columns are there and the renaming
    leaves no label twice, whatever the service does. *)
Lemma main_returns df w :
  forallb (fun c => has_column c (columns df)) columns_read = true ->
  has_duplicates (export_header (columns df)) = false ->
  exists out ev w', main float_repr geocode df w = Ok (out, ev, w').
Proof.
  intros Hcols Hdup. rewrite (main_spec df w Hcols Hdup).
  destruct (geocode_loop geocode _ w) as [[coords loop_events] w'].
  eauto.
Qed.

(** Otherwise it raises [KeyError] for one of them, before the loop. *)
Lemma main_key_error df w :
  forallb (fun c => has_column c (columns df)) columns_read = false ->
  exists c, In c columns_read /\ has_column c (columns df) = false
            /\ main float_repr geocode df w = Err (KeyError c).
Proof.
  intros Hcols. destruct (full_address_err float_repr df Hcols) as (c & Hin & Hc & E).
  exists c. repeat split; try assumption. unfold main. now rewrite E.
Qed.

Lemma main_ok_columns df w out :
  main float_repr geocode df w = Ok out ->
  forallb (fun c => has_column c (columns df)) columns_read = true.
Proof.
  intros H.
  destruct (forallb (fun c => has_column c (columns df)) columns_read) eqn:E;
    [reflexivity|].
  destruct (main_key_error df w E) as (c & _ & _ & E'). congruence.
Qed.

Lemma main_ok_unique df w out :
  main float_repr geocode df w = Ok out ->
  has_duplicates (export_header (columns df)) = false.
Proof.
  intros H. pose proof (@main_ok_columns df w out H) as Hcols.
  rewrite (main_outcome df w Hcols) in H.
  destruct (has_duplicates (export_header (columns df)));
    [discriminate|reflexivity].
Qed.

End PipelineFacts.

(** ** Lists *)



(** ** The aliases of line 67 *)

Lemma rename_label_filter hdr m k :
  rename_label (filter (fun kv => has_column (fst kv) hdr) m) k
  = if has_column k hdr then rename_label m k else k.
Proof.
  induction m as [|[k' a] t IH]; simpl.
  - now destruct (has_column k hdr).
  - destruct (k' =? k)%string eqn:E.
    + apply String.eqb_eq in E. subst k'.
      destruct (has_column k hdr) eqn:Hk; simpl.
      * now rewrite String.eqb_refl.
      * rewrite IH. now rewrite ?Hk.
    + destruct (has_column k' hdr); simpl; [rewrite E|]; exact IH.
Qed.

Lemma rename_label_alias k a : In (k, a) rename_map -> rename_label rename_map k = a.
Proof.
  simpl. intros [H|[H|[H|[H|[H|[]]]]]]; injection H as <- <-; reflexivity.
Qed.

Lemma rename_label_other k : ~ In k ADDRESS_COLS -> rename_label rename_map k = k.
Proof.
  intros H. unfold rename_map. cbn [rename_label].
  repeat match goal with
         | |- (if (?c =? k)%string then _ else _) = _ =>
             destruct (c =? k)%string eqn:?E;
             [apply String.eqb_eq in E; exfalso; apply H; rewrite <- E;
              simpl; auto 6|clear E]
         end.
  reflexivity.
Qed.




(** ** Properties of the script *)

(** C1. The address line of the sample row Address="1 Main St",
    City="Springfield", State/Province="IL", Postal Code="62701",
    Country="USA" is "1 Main St Springfield IL USA": lines 32-35 join four
    of the five address fields, the postal code is not among them. *)
Theorem full_address_of_springfield :
  forall float_repr,
    full_address float_repr Mock.springfield
    = Ok ["1 Main St Springfield IL USA"]
    /\ full_address float_repr Mock.springfield
       <> Ok ["1 Main St Springfield IL 62701 USA"].
Proof.
  intros float_repr. split; [reflexivity|discriminate].
Qed.

(** C2. A table that lacks the "Postal Code" column, and only that one of
    the five address columns, raises no [KeyError]: [main] runs to the
    end. *)
Theorem main_without_postal_code :
  has_column "Postal Code" (columns Mock.no_postal_code) = false
  /\ forall float_repr service
            (geocode : string -> nat -> service -> outcome * service) w,
       exists out ev w',
         main float_repr geocode Mock.no_postal_code w = Ok (out, ev, w').
Proof.
  split; [reflexivity|]. intros. now apply main_returns.
Qed.

Section Claims.

Variable float_repr : Q -> string.
Variable service : Type.
Variable geocode : string -> nat -> service -> outcome * service.


(** C4. No entry of [coords] is a partial pair: in every result of the loop
    the latitude is absent exactly when the longitude is. *)
Theorem geocode_result_never_partial addrs w :
  Forall (fun c : coord_pair => fst c = None <-> snd c = None)
         (fst (fst (geocode_loop geocode addrs w))).
Proof.
  revert w. induction addrs as [|a rest IH]; intros w; [constructor|].
  rewrite geocode_loop_cons.
  pose proof (geocode_row_pair geocode a w) as Hrow.
  destruct (geocode_row geocode a w) as [[c ev] w1].
  specialize (IH w1).
  destruct (geocode_loop geocode rest w1) as [[cs evs] w2].
  cbn [fst snd] in *. constructor; [|exact IH].
  destruct Hrow as [Hrow| ->]; [|simpl; tauto].
  destruct c as [[lat|] [lon|]]; try discriminate. simpl.
  split; discriminate.
Qed.

(** C5. A row whose address is missing, empty or white space only gets
    (None, None) at once: the iteration has no effect at all (no call of
    the service, no output, no sleep) and leaves the world as it found it,
    so the loop is the loop over the rows before it, this pair, and the
    loop over the rows after it. *)
Theorem blank_address_skipped pre a rest w :
  is_blank a = true ->
  geocode_row geocode a w = ((None, None), [], w)
  /\ calls (snd (fst (geocode_row geocode a w))) = []
  /\ geocode_loop geocode (pre ++ a :: rest) w
     = (let '(c1, e1, w1) := geocode_loop geocode pre w in
        let '(c2, e2, w2) := geocode_loop geocode rest w1 in
        (c1 ++ (None, None) :: c2, e1 ++ e2, w2)).
Proof.
  intros Hblank. split; [now apply geocode_row_blank|].
  split; [now rewrite geocode_row_blank|].
  rewrite geocode_loop_app.
  destruct (geocode_loop geocode pre w) as [[c1 e1] w1].
  rewrite geocode_loop_cons, (geocode_row_blank geocode a w1 Hblank).
  destruct (geocode_loop geocode rest w1) as [[c2 e2] w2]. reflexivity.
Qed.




End Claims.

(** ** The loop over the rate limiter of line 23 *)

Section LimiterFacts.

Variable float_repr : Q -> string.
Variable S : Type.
Variable lookup : string -> nat -> S -> reply * S.

(** One call of the rate-limited callable sends the address to the service
    at least once and at most [retries + 1] times, and a second time at
    least when the first request fails with a service error and a retry is
    left. *)
Lemma attempt_requests retries a t :
  forall w : Limiter.world S,
    exists n,
      1 <= n <= Datatypes.S retries
      /\ Limiter.requests (snd (Limiter.attempt lookup retries a t w))
         = Limiter.requests w ++ repeat a n
      /\ (forall e, fst (lookup a t (Limiter.backend w)) = ServiceError e ->
                    1 <= retries -> 2 <= n).
Proof.
  induction retries as [|r IH]; intros w; cbn [Limiter.attempt];
    destruct (lookup a t (Limiter.backend w)) as [[lat lon| |e|e] b];
    cbn [fst snd Limiter.requests];
    try (exists 1; split; [lia|]; split; [reflexivity|];
         intros e' H; solve [discriminate H | lia]).
  destruct (IH (Limiter.mkWorld b (Limiter.requests w ++ [a])
                  (Limiter.error_waits w ++ [5%Q])))
    as (n & Hn & Hreq & _).
  exists (Datatypes.S n). split; [lia|]. split; [|intros; lia].
  rewrite Hreq. cbn [Limiter.requests repeat].
  now rewrite <- app_assoc.
Qed.

(** A service error never comes out of the rate-limited callable: what it
    raises is an exception of another kind, from the last request. *)
Lemma attempt_raises retries a t :
  forall (w : Limiter.world S) e,
    fst (Limiter.attempt lookup retries a t w) = Raised e ->
    exists b, In a (Limiter.requests (snd (Limiter.attempt lookup retries a t w)))
              /\ fst (lookup a t b) = OtherError e.
Proof.
  induction retries as [|r IH]; intros w e; cbn [Limiter.attempt];
    destruct (lookup a t (Limiter.backend w)) as [[lat lon| |x|x] b] eqn:E;
    cbn [fst snd Limiter.requests]; try discriminate.
  - intros [= <-]. exists (Limiter.backend w). rewrite E.
    split; [apply in_or_app; right; now left|reflexivity].
  - apply IH.
  - intros [= <-]. exists (Limiter.backend w). rewrite E.
    split; [apply in_or_app; right; now left|reflexivity].
Qed.

(** C6, amended. When the rate-limited lookup of a row hands back no
    location (the service found nothing, or kept failing, or raised), the
    row gets (None, None), the script has invoked the callable once for the
    row and prints the exception if one came out of it, and the loop goes on
    with the rows after it.  Inside that one invocation the rate limiter
    sends the address to the service one to three times, and at least twice
    when the first request fails with a service error.  [main] returns
    whatever the service replies, for every table that has the four columns
    read and no label twice after the renaming. *)
Theorem failed_lookup_gives_no_fix pre a rest w :
  is_blank (Some a) = false ->
  (forall lat lon,
      fst (Limiter.geocode lookup a 15
             (snd (geocode_loop (Limiter.geocode lookup) pre w)))
      <> Located lat lon) ->
  let geocode := Limiter.geocode lookup in
  let before := geocode_loop geocode pre w in
  let attempt := geocode a 15 (snd before) in
  (exists ev,
     geocode_loop geocode (pre ++ Some a :: rest) w
     = (let '(c2, e2, w3) := geocode_loop geocode rest (snd attempt) in
        (fst (fst before) ++ (None, None) :: c2,
         snd (fst before) ++ ev ++ e2, w3))
     /\ calls ev = [a]
     /\ (forall e, fst attempt = Raised e -> In (Print (GeocodeError e)) ev))
  /\ (exists n,
        1 <= n <= 3
        /\ Limiter.requests (snd attempt)
           = Limiter.requests (snd before) ++ repeat a n
        /\ (forall e,
               fst (lookup a 15 (Limiter.backend (snd before)))
               = ServiceError e -> 2 <= n))
  /\ (forall df w0,
        forallb (fun c => has_column c (columns df)) columns_read = true ->
        has_duplicates (export_header (columns df)) = false ->
        exists out ev w', main float_repr geocode df w0 = Ok (out, ev, w')).
Proof.
  intros Hblank Hfail geocode before attempt.
  split; [exact (failed_call_recovered geocode pre a rest w Hblank Hfail)|].
  split; [|intros df w0; apply main_returns].
  destruct (attempt_requests 2 a 15 (snd before)) as (n & Hn & Hreq & Hre).
  exists n. split; [exact Hn|]. split; [exact Hreq|].
  intros e He. apply (Hre e He). lia.
Qed.

End LimiterFacts.


(** ** The properties on the sample tables *)


Lemma blank_address_skipped_witness :
  is_blank (Some "   ") = true
  /\ geocode_row Mock.geocode (Some "   ") Mock.one_fix
     = ((None, None), [], Mock.one_fix).
Proof.
  split; [reflexivity|].
  exact (proj1 (@blank_address_skipped (list outcome) Mock.geocode
                  [] (Some "   ") [] Mock.one_fix eq_refl)).
Defined.

Lemma failed_lookup_gives_no_fix_witness :
  is_blank (Some "1 Main St") = false
  /\ exists n,
       1 <= n <= 3
       /\ Limiter.requests
            (snd (Limiter.geocode Mock.lookup "1 Main St" 15 Mock.unreachable))
          = repeat "1 Main St" n
       /\ 2 <= n.
Proof.
  split; [reflexivity|].
  destruct (@failed_lookup_gives_no_fix Mock.float_repr (list reply)
              Mock.lookup [] "1 Main St" [] Mock.unreachable)
    as (_ & (n & Hn & Hreq & Hre) & _).
  - reflexivity.
  - intros lat lon. discriminate.
  - exists n. split; [exact Hn|]. split; [exact Hreq|].
    apply (Hre "timed out"). reflexivity.
Defined.

(** C6 as first stated fails on the script as line 23 builds it: with a
    service that times out, the run over the sample table sends the one
    address three times, and no error line is printed, the exception having
    been swallowed before it could reach line 46. *)
Lemma failed_lookup_is_retried :
  exists out ev w',
    main Mock.float_repr (Limiter.geocode Mock.lookup) Mock.springfield
         Mock.unreachable
    = Ok (out, ev, w')
    /\ features out = []
    /\ calls ev = ["1 Main St Springfield IL USA"]
    /\ Limiter.requests w' = ["1 Main St Springfield IL USA";
                              "1 Main St Springfield IL USA";
                              "1 Main St Springfield IL USA"]
    /\ Limiter.error_waits w' = [5%Q; 5%Q]
    /\ (forall e, ~ In (Print (GeocodeError e)) ev).
Proof.
  eexists _, _, _. split; [vm_compute; reflexivity|].
  repeat split.
  intros e H. cbn [In app] in H.
  repeat (destruct H as [H|H]; [discriminate H|]). destruct H.
Qed.




(** C9. An original column labelled "geometry" is not preserved: on the
    sample table with such a column the row survives, its feature is
    written, and the cell ("geometry", "kiosk") is not among the properties
    of the feature, although the label is none of full_address, latitude,
    longitude. *)
Lemma geometry_column_lost :
  Mock.run Mock.with_geometry Mock.one_fix
  = Ok ({| file_crs := "EPSG:4326"; features := [Mock.kiosk_feature] |},
        Mock.springfield_trace, [])
  /\ survivors (data Mock.with_geometry)
       (fst (fst (geocode_loop Mock.geocode
                    (map Some ["1 Main St Springfield IL USA"]) Mock.one_fix)))
     = [(Mock.kiosk_row, (Some 39.78%Q, Some (-89.65)%Q))]
  /\ ~ preserved_in ["full_address"; "latitude"; "longitude"]
         (columns Mock.with_geometry) Mock.kiosk_row Mock.kiosk_feature.
Proof.
  split; [reflexivity|]. split; [reflexivity|].
  intros H.
  destruct (H "geometry" (VStr "kiosk")) as [_ Hkept].
  - simpl. auto 10.
  - simpl. auto 10.
  - simpl. intuition discriminate.
  - assert (Hin : In ("geometry", VStr "kiosk")
                     (properties Mock.kiosk_feature)).
    { apply Hkept. simpl. intuition discriminate. }
    simpl in Hin. intuition discriminate.
Qed.

(** The run over three rows, the second of which fails at the service:
    [main] returns, two features are written, one error line is printed and
    the service was called three times, once per row. *)
Example three_rows_one_failure :
  exists out ev,
    Mock.run Mock.three_rows Mock.second_fails = Ok (out, ev, [])
    /\ List.length (features out) = 2
    /\ filter (fun e => match e with Print (GeocodeError _) => true | _ => false end) ev
       = [Print (GeocodeError "timed out")]
    /\ calls ev = ["1 Main St Springfield IL USA";
                   "2 Main St Springfield IL USA";
                   "3 Main St Springfield IL USA"]
    /\ In (Print (Summary 2 3)) ev.
Proof.
  eexists _, _. split; [vm_compute; reflexivity|].
  repeat split; vm_compute; try reflexivity.
  repeat (first [left; reflexivity | right]).
Qed.

(** ** Further properties: strings *)

Lemma chars_append (s t : string) :
  list_ascii_of_string (s ++ t)
  = list_ascii_of_string s ++ list_ascii_of_string t.
Proof. induction s as [|c r IH]; simpl; [reflexivity|now rewrite IH]. Qed.

Lemma length_append (s t : string) :
  String.length (s ++ t) = String.length s + String.length t.
Proof. induction s as [|c r IH]; simpl; [reflexivity|now rewrite IH]. Qed.

Lemma length_spaces n : String.length (PyStr.spaces n) = n.
Proof. induction n; simpl; [reflexivity|now f_equal]. Qed.

Lemma length_take n : forall s, String.length (PyStr.take n s) = Nat.min n (String.length s).
Proof.
  induction n as [|n IH]; intros [|c r]; simpl; try reflexivity.
  now rewrite IH.
Qed.

(** The address field of a progress line (line 49, [{addr[:50]:<50}]) is
    exactly 50 characters wide, whatever the address. *)
Theorem progress_field_width (a : string) :
  String.length (PyStr.ljust 50 (PyStr.take 50 a)) = 50.
Proof.
  unfold PyStr.ljust. rewrite length_append, length_spaces, length_take. lia.
Qed.

Lemma lstrip_empty s :
  PyStr.lstrip s = "" <-> forallb PyStr.isspace (list_ascii_of_string s) = true.
Proof.
  induction s as [|c r IH]; simpl; [tauto|].
  destruct (PyStr.isspace c); simpl; [exact IH|].
  split; discriminate.
Qed.

Lemma rstrip_empty s :
  PyStr.rstrip s = "" <-> forallb PyStr.isspace (list_ascii_of_string s) = true.
Proof.
  induction s as [|c r IH]; simpl; [tauto|].
  destruct (PyStr.rstrip r) eqn:E.
  - destruct (PyStr.isspace c); simpl.
    + split; [intros _; now apply IH|reflexivity].
    + split; discriminate.
  - split; [discriminate|].
    intros H. apply andb_true_iff in H. destruct H as [_ H].
    apply IH in H. discriminate.
Qed.

Lemma lstrip_suffix s :
  exists pre, s = (pre ++ PyStr.lstrip s)%string
              /\ forallb PyStr.isspace (list_ascii_of_string pre) = true.
Proof.
  induction s as [|c r (pre & E & H)]; simpl.
  - exists "". auto.
  - destruct (PyStr.isspace c) eqn:Hc.
    + exists (String c pre). simpl. rewrite Hc, H. now rewrite <- E.
    + exists "". auto.
Qed.

Lemma strip_blank (a : string) :
  (PyStr.strip a =? "")%string
  = forallb PyStr.isspace (list_ascii_of_string a).
Proof.
  unfold PyStr.strip.
  destruct (forallb PyStr.isspace (list_ascii_of_string a)) eqn:E.
  - apply lstrip_empty in E. rewrite E. reflexivity.
  - apply String.eqb_neq. intros H. apply rstrip_empty in H.
    destruct (lstrip_suffix a) as (pre & Ea & Hpre).
    rewrite Ea, chars_append, forallb_app, Hpre, H in E. discriminate.
Qed.

(** Line 41: [addr.strip() == ''] holds exactly when every character of the
    address is white space. *)
Theorem blank_iff_all_white_space (a : string) :
  is_blank (Some a) = forallb PyStr.isspace (list_ascii_of_string a).
Proof. cbn [is_blank]. apply strip_blank. Qed.

Lemma rstrip_fixed s : PyStr.rstrip (PyStr.rstrip s) = PyStr.rstrip s.
Proof.
  induction s as [|c r IH]; simpl; [reflexivity|].
  destruct (PyStr.rstrip r) as [|c' r'] eqn:E.
  - destruct (PyStr.isspace c) eqn:Hc; simpl; [reflexivity|now rewrite Hc].
  - change (PyStr.rstrip (String c (String c' r')))
      with (match PyStr.rstrip (String c' r') with
            | EmptyString =>
                if PyStr.isspace c then EmptyString else String c EmptyString
            | String x y => String c (String x y)
            end).
    now rewrite IH.
Qed.

Lemma rstrip_head c r :
  PyStr.isspace c = false -> exists t, PyStr.rstrip (String c r) = String c t.
Proof.
  intros Hc. simpl. destruct (PyStr.rstrip r); [rewrite Hc|]; eauto.
Qed.

Lemma lstrip_head s :
  PyStr.lstrip s = ""
  \/ exists c r, PyStr.lstrip s = String c r /\ PyStr.isspace c = false.
Proof.
  induction s as [|c r IH]; simpl; [now left|].
  destruct (PyStr.isspace c) eqn:Hc; [exact IH|].
  right. eauto.
Qed.

(** [str.strip] is idempotent: a stripped string has no white space left at
    either end. *)
Theorem strip_idempotent (s : string) :
  PyStr.strip (PyStr.strip s) = PyStr.strip s.
Proof.
  unfold PyStr.strip.
  destruct (lstrip_head s) as [E|(c & r & E & Hc)]; rewrite E.
  - reflexivity.
  - destruct (@rstrip_head c r Hc) as (t & Et). rewrite Et.
    cbn [PyStr.lstrip]. rewrite Hc, <- Et. apply rstrip_fixed.
Qed.

(** ** Further properties: the address line *)

Lemma sub_runs_no_comma s :
  forall b, ~ In ","%char (list_ascii_of_string (Regex.sub_runs b s)).
Proof.
  induction s as [|c r IH]; intros b; simpl; [tauto|].
  destruct (Regex.in_class c) eqn:Hc.
  - destruct b; simpl; [apply IH|].
    intros [H|H]; [discriminate|now apply (IH true)].
  - simpl. intros [H|H]; [|now apply (IH false)].
    subst c. discriminate.
Qed.

Lemma sub_runs_true_head s c :
  String.get 0 (Regex.sub_runs true s) = Some c -> Regex.in_class c = false.
Proof.
  induction s as [|c0 r IH]; simpl; [discriminate|].
  destruct (Regex.in_class c0) eqn:Hc; [exact IH|].
  simpl. intros [= <-]. exact Hc.
Qed.

Lemma sub_runs_spaced s :
  forall b i,
    String.get i (Regex.sub_runs b s) = Some " "%char ->
    String.get (S i) (Regex.sub_runs b s) <> Some " "%char.
Proof.
  induction s as [|c r IH]; intros b i; simpl; [discriminate|].
  destruct (Regex.in_class c) eqn:Hc.
  - destruct b; [apply IH|].
    destruct i as [|i]; simpl.
    + intros _ H. apply sub_runs_true_head in H. discriminate.
    + apply IH.
  - destruct i as [|i]; simpl.
    + intros [= ->]. discriminate.
    + apply IH.
Qed.

(** The address line handed to the service (line 36) holds no comma and no
    two spaces in a row: the ", " separators of lines 32-35 are gone. *)
Theorem normalized_has_single_spaces (s : string) :
  ~ In ","%char (list_ascii_of_string (Regex.replace_commas_spaces s))
  /\ forall i,
       String.get i (Regex.replace_commas_spaces s) = Some " "%char ->
       String.get (S i) (Regex.replace_commas_spaces s) <> Some " "%char.
Proof.
  split; [apply sub_runs_no_comma|apply sub_runs_spaced].
Qed.

Lemma sub_runs_content s :
  forall b,
    filter (fun c => negb (Regex.in_class c))
           (list_ascii_of_string (Regex.sub_runs b s))
    = filter (fun c => negb (Regex.in_class c)) (list_ascii_of_string s).
Proof.
  induction s as [|c r IH]; intros b; simpl; [reflexivity|].
  destruct (Regex.in_class c) eqn:Hc; simpl.
  - destruct b; simpl; apply IH.
  - rewrite Hc. simpl. now rewrite IH.
Qed.

(** The replacement of line 36 touches commas and spaces only: every other
    character of the string is kept, in order. *)
Theorem normalize_keeps_other_characters (s : string) :
  filter (fun c => negb (Regex.in_class c))
         (list_ascii_of_string (Regex.replace_commas_spaces s))
  = filter (fun c => negb (Regex.in_class c)) (list_ascii_of_string s).
Proof. apply sub_runs_content. Qed.

Lemma sub_runs_white s :
  forall b,
    forallb PyStr.isspace (list_ascii_of_string (Regex.sub_runs b s))
    = forallb (fun c => PyStr.isspace c || Regex.in_class c)
              (list_ascii_of_string s).
Proof.
  induction s as [|c r IH]; intros b; simpl; [reflexivity|].
  destruct (Regex.in_class c) eqn:Hc.
  - rewrite orb_true_r. destruct b; simpl; apply IH.
  - simpl. rewrite orb_false_r. now rewrite IH.
Qed.

(** A string is blank after the replacement of line 36 exactly when it is
    made of white space and commas only. *)
Theorem normalized_blank_iff (s : string) :
  is_blank (Some (Regex.replace_commas_spaces s))
  = forallb white_or_separator (list_ascii_of_string s).
Proof.
  cbn [is_blank]. rewrite strip_blank. apply sub_runs_white.
Qed.

Lemma rstrip_prefix s :
  exists suf, s = (PyStr.rstrip s ++ suf)%string
              /\ forallb PyStr.isspace (list_ascii_of_string suf) = true.
Proof.
  induction s as [|c r (suf & E & H)]; simpl.
  - exists "". auto.
  - destruct (PyStr.rstrip r) as [|c' r'] eqn:Er.
    + simpl in E. destruct (PyStr.isspace c) eqn:Hc.
      * exists (String c r). split; [reflexivity|].
        cbn [list_ascii_of_string forallb]. rewrite Hc. cbn [andb].
        rewrite E. exact H.
      * exists suf. split; [|exact H]. cbn [append]. now rewrite <- E.
    + exists suf. split; [|exact H]. simpl. simpl in E. now rewrite <- E.
Qed.

(** Stripping removes white space only, so a test that white space passes
    gives the same answer before and after. *)
Lemma strip_forallb (P : ascii -> bool) s :
  (forall c, PyStr.isspace c = true -> P c = true) ->
  forallb P (list_ascii_of_string (PyStr.strip s))
  = forallb P (list_ascii_of_string s).
Proof.
  intros HP.
  assert (Hall : forall t, forallb PyStr.isspace (list_ascii_of_string t) = true ->
                           forallb P (list_ascii_of_string t) = true).
  { intros t Ht. apply forallb_forall. intros x Hx.
    apply HP. now apply (proj1 (forallb_forall _ _) Ht). }
  unfold PyStr.strip.
  destruct (lstrip_suffix s) as (pre & Es & Hpre).
  destruct (rstrip_prefix (PyStr.lstrip s)) as (suf & El & Hsuf).
  rewrite Es at 2. rewrite El at 2.
  rewrite !chars_append, !forallb_app, (Hall _ Hpre), (Hall _ Hsuf).
  now rewrite andb_true_r.
Qed.

Lemma space_is_white_or_separator c :
  PyStr.isspace c = true -> white_or_separator c = true.
Proof. unfold white_or_separator. now intros ->. Qed.

Section AddressFacts.

Variable float_repr : Q -> string.

Lemma address_line_blank r :
  is_blank (Some (address_line float_repr r))
  = forallb (fun c => forallb white_or_separator
                        (list_ascii_of_string (str_of float_repr (cell c r))))
            columns_read.
Proof.
  unfold address_line. cbn [is_blank]. rewrite strip_blank.
  unfold Regex.replace_commas_spaces. rewrite sub_runs_white.
  fold white_or_separator.
  change (fun c => PyStr.isspace c || Regex.in_class c) with white_or_separator.
  rewrite !chars_append, !forallb_app.
  rewrite !(strip_forallb white_or_separator _ space_is_white_or_separator).
  change (forallb white_or_separator (list_ascii_of_string ", ")) with true.
  cbn [forallb columns_read]. rewrite !andb_true_r.
  now rewrite <- !andb_assoc.
Qed.

(** The loop skips a row exactly when each of the four fields that lines
    32-35 read, rendered as a string, holds nothing but white space and
    commas. *)
Theorem row_skipped_iff r :
  is_blank (Some (address_line float_repr r)) = true
  <-> forall c, In c columns_read ->
                forallb white_or_separator
                  (list_ascii_of_string (str_of float_repr (cell c r))) = true.
Proof.
  rewrite address_line_blank, forallb_forall. tauto.
Qed.

(** A row with a missing value in one of the four fields is not skipped:
    the missing value reads "nan", so the address line is not blank and the
    row goes to the service. *)
Theorem missing_field_is_geocoded r c :
  In c columns_read -> cell c r = VNaN ->
  is_blank (Some (address_line float_repr r)) = false.
Proof.
  intros Hc Hnan. rewrite address_line_blank.
  destruct (forallb _ columns_read) eqn:E; [|reflexivity].
  rewrite forallb_forall in E. specialize (E c Hc). rewrite Hnan in E.
  discriminate.
Qed.

End AddressFacts.

(** ** Further properties: the loop and the service *)

Lemma map_const_repeat {A B : Type} (x : B) (l : list A) :
  map (fun _ => x) l = repeat x (List.length l).
Proof. induction l; simpl; [reflexivity|now f_equal]. Qed.

Section ServiceFacts.

Variable service : Type.
Variable geocode : string -> nat -> service -> outcome * service.

(** The effects of one iteration on a row that is not skipped: one call with
    the timeout 15 and one pause of 1.2 seconds. *)
Lemma geocode_row_effects a w :
  let ev := snd (fst (geocode_row geocode a w)) in
  calls ev = sent [a] /\ timeouts ev = map (fun _ => 15) (sent [a])
  /\ sleeps ev = map (fun _ => 1.2%Q) (sent [a]).
Proof.
  destruct a as [a|]; cbn [geocode_row sent flat_map is_blank];
    [|repeat split].
  destruct (PyStr.strip a =? "")%string; [repeat split|].
  destruct (geocode a 15 w) as [[lat lon| |e] w']; repeat split.
Qed.

Lemma sent_cons a rest : sent (a :: rest) = sent [a] ++ sent rest.
Proof. unfold sent. cbn [flat_map]. now rewrite app_nil_r. Qed.

Lemma loop_effects addrs :
  forall w,
    let ev := snd (fst (geocode_loop geocode addrs w)) in
    calls ev = sent addrs /\ timeouts ev = map (fun _ => 15) (sent addrs)
    /\ sleeps ev = map (fun _ => 1.2%Q) (sent addrs).
Proof.
  induction addrs as [|a rest IH]; intros w; [repeat split|].
  cbv zeta. rewrite geocode_loop_cons.
  pose proof (geocode_row_effects a w) as Hrow.
  destruct (geocode_row geocode a w) as [[c ev] w1].
  specialize (IH w1).
  destruct (geocode_loop geocode rest w1) as [[cs evs] w2].
  cbn [fst snd] in *. destruct Hrow as (Hc & Ht & Hs).
  destruct IH as (IHc & IHt & IHs).
  unfold calls, timeouts, sleeps in *.
  rewrite (sent_cons a rest), !flat_map_app, !map_app.
  rewrite Hc, Ht, Hs, IHc, IHt, IHs.
  repeat split.
Qed.

(** The service is called with exactly the address lines of the rows that
    are not skipped, in row order, once each and with the timeout 15: equal
    addresses are sent again, nothing is cached. *)
Theorem calls_are_the_unskipped_addresses addrs w :
  calls (snd (fst (geocode_loop geocode addrs w))) = sent addrs
  /\ timeouts (snd (fst (geocode_loop geocode addrs w)))
     = repeat 15 (List.length (sent addrs)).
Proof.
  destruct (loop_effects addrs w) as (Hc & Ht & _).
  split; [exact Hc|]. rewrite Ht. apply map_const_repeat.
Qed.

(** The loop pauses 1.2 seconds once per call and never for a skipped row. *)
Theorem one_pause_per_call addrs w :
  sleeps (snd (fst (geocode_loop geocode addrs w)))
  = repeat 1.2%Q (List.length (calls (snd (fst (geocode_loop geocode addrs w))))).
Proof.
  destruct (loop_effects addrs w) as (Hc & _ & Hs).
  rewrite Hc, Hs. apply map_const_repeat.
Qed.

(** Skipped rows are invisible to the service: the loop over the rows that
    are not skipped alone has the same effects, leaves the same world and
    finds the same results for them. *)
Theorem skipped_rows_are_invisible addrs :
  forall w,
    let live := filter (fun a => negb (is_blank a)) addrs in
    let all := geocode_loop geocode addrs w in
    geocode_loop geocode live w
    = (map snd (filter (fun ac => negb (is_blank (fst ac)))
                       (combine addrs (fst (fst all)))),
       snd (fst all), snd all).
Proof.
  induction addrs as [|a rest IH]; intros w; [reflexivity|].
  cbv zeta. cbn [filter]. rewrite (geocode_loop_cons geocode a rest w).
  destruct (is_blank a) eqn:Hb; cbn [negb].
  - rewrite (geocode_row_blank geocode a w Hb).
    specialize (IH w). cbv zeta in IH. rewrite IH.
    destruct (geocode_loop geocode rest w) as [[cs evs] w2].
    cbn [fst snd combine filter]. now rewrite Hb.
  - rewrite geocode_loop_cons.
    destruct (geocode_row geocode a w) as [[c ev] w1].
    specialize (IH w1). cbv zeta in IH. rewrite IH.
    destruct (geocode_loop geocode rest w1) as [[cs evs] w2].
    cbn [fst snd combine filter]. rewrite Hb. reflexivity.
Qed.

End ServiceFacts.

(** ** Further properties: tables *)

Lemma cells_after_assign c rows :
  forall vs, List.length vs = List.length rows ->
             map (cell c) (assign c rows vs) = vs.
Proof.
  induction rows as [|r rs IH]; intros [|v vs]; simpl; intros H;
    try reflexivity; try discriminate.
  rewrite cell_put_same, IH by lia. reflexivity.
Qed.

Lemma other_cells_after_assign c c' rows :
  c' <> c -> forall vs, map (cell c') (assign c rows vs) = map (cell c') rows.
Proof.
  intros Hne. induction rows as [|r rs IH]; intros vs; simpl; [reflexivity|].
  now rewrite cell_put_other, IH.
Qed.


(** Reading a column back after an assignment of as many values as the
    table has rows returns these values. *)
Theorem getitem_after_setitem c vs df :
  List.length vs = len df -> getitem c (setitem c vs df) = Ok vs.
Proof.
  intros Hlen. unfold getitem, setitem. cbn [columns data].
  rewrite has_column_with_same. now rewrite cells_after_assign.
Qed.

(** An assignment to one column leaves every other column as it was,
    present or not. *)
Theorem setitem_keeps_other_columns c c' vs df :
  c' <> c -> getitem c' (setitem c vs df) = getitem c' df.
Proof.
  intros Hne. unfold getitem, setitem. cbn [columns data].
  rewrite has_column_with_other by assumption.
  now rewrite other_cells_after_assign.
Qed.


Lemma filter_twice {A : Type} (f : A -> bool) l :
  filter f (filter f l) = filter f l.
Proof.
  induction l as [|x l IH]; simpl; [reflexivity|].
  destruct (f x) eqn:E; simpl; [rewrite E|]; now rewrite ?IH.
Qed.

(** [dropna] keeps the header, keeps exactly the rows that have a value in
    every column of the subset, in their order, and has nothing left to drop
    when applied again. *)
Theorem dropna_keeps_complete_rows subset df df' :
  dropna subset df = Ok df' ->
  columns df' = columns df
  /\ data df' = filter (fun r => forallb (fun c => negb (isna (cell c r))) subset)
                       (data df)
  /\ (forall r, In r (data df')
                <-> In r (data df)
                    /\ forall c, In c subset -> isna (cell c r) = false)
  /\ len df' <= len df
  /\ dropna subset df' = Ok df'.
Proof.
  unfold dropna.
  destruct (find (fun c => negb (has_column c (columns df))) subset) eqn:E;
    [discriminate|].
  intros [= <-]. cbn [columns data]. split; [reflexivity|].
  split; [reflexivity|]. split; [|split].
  - intros r. rewrite filter_In, forallb_forall.
    split; intros [Hin H]; split; try assumption; intros c Hc;
      specialize (H c Hc).
    + now apply negb_true_iff in H.
    + now apply negb_true_iff.
  - unfold len. cbn [data]. apply filter_length_le.
  - rewrite E, filter_twice. reflexivity.
Qed.

(** ** Further properties: the renaming of line 67 *)

(** The presence test of line 67 changes nothing: on a table whose rows use
    the labels of the header, renaming with the filtered mapper is renaming
    with the whole [rename_map]. *)
Theorem presence_filter_is_redundant df :
  Forall (fun r : row => forall k v, In (k, v) r -> In k (columns df)) (data df) ->
  rename (filter (fun kv => has_column (fst kv) (columns df)) rename_map) df
  = rename rename_map df.
Proof.
  intros Hwf.
  assert (Hlabel : forall k, In k (columns df) ->
            rename_label (filter (fun kv => has_column (fst kv) (columns df))
                                 rename_map) k
            = rename_label rename_map k).
  { intros k Hk. rewrite rename_label_filter.
    apply has_column_In in Hk. now rewrite Hk. }
  unfold rename. f_equal.
  - apply map_ext_in. exact Hlabel.
  - apply map_ext_in. intros r Hr. unfold rename_row.
    apply map_ext_in. intros [k v] Hkv. cbn [fst snd]. f_equal.
    apply Hlabel. rewrite Forall_forall in Hwf. exact (Hwf r Hr k v Hkv).
Qed.

Lemma alias_injective k1 k2 a :
  In (k1, a) rename_map -> In (k2, a) rename_map -> k1 = k2.
Proof.
  unfold rename_map. cbn [In].
  intros [H1|[H1|[H1|[H1|[H1|[]]]]]] [H2|[H2|[H2|[H2|[H2|[]]]]]];
    congruence.
Qed.

Lemma rename_label_canonical k :
  In k ADDRESS_COLS -> In (k, rename_label rename_map k) rename_map.
Proof.
  unfold ADDRESS_COLS. cbn [In].
  intros [<-|[<-|[<-|[<-|[<-|[]]]]]]; vm_compute; auto 10.
Qed.

Lemma ADDRESS_COLS_dec k : {In k ADDRESS_COLS} + {~ In k ADDRESS_COLS}.
Proof. apply in_dec, string_dec. Qed.

Lemma map_injective_on {A B : Type} (f : A -> B) l :
  NoDup l ->
  (forall x y, In x l -> In y l -> f x = f y -> x = y) ->
  NoDup (map f l).
Proof.
  induction 1 as [|x l Hx Hnd IH]; intros Hinj; simpl; constructor.
  - intros Hin. apply in_map_iff in Hin. destruct Hin as (y & E & Hy).
    assert (y = x) by (apply Hinj; simpl; auto). now subst.
  - apply IH. intros a b Ha Hb. apply Hinj; now right.
Qed.

(** When the header has no duplicate and holds none of the lowercase
    aliases, the header written after line 67 has no duplicate either. *)
Theorem renamed_header_has_no_duplicates hdr :
  NoDup hdr ->
  (forall a, In a (map snd rename_map) -> ~ In a hdr) ->
  NoDup (map (rename_label (present_aliases hdr)) hdr).
Proof.
  intros Hnd Hfresh. apply map_injective_on; [assumption|].
  intros x y Hx Hy. unfold present_aliases. rewrite !rename_label_filter.
  rewrite (proj2 (has_column_In x hdr) Hx), (proj2 (has_column_In y hdr) Hy).
  destruct (ADDRESS_COLS_dec x) as [Cx|Cx], (ADDRESS_COLS_dec y) as [Cy|Cy].
  - intros E. apply rename_label_canonical in Cx, Cy. rewrite E in Cx.
    exact (alias_injective Cx Cy).
  - rewrite (rename_label_other Cy). intros E. exfalso.
    apply (Hfresh y); [|assumption]. rewrite <- E.
    apply rename_label_canonical in Cx.
    change (rename_label rename_map x)
      with (snd (x, rename_label rename_map x)). now apply in_map.
  - rewrite (rename_label_other Cx). intros E. exfalso.
    apply (Hfresh x); [|assumption]. rewrite E.
    apply rename_label_canonical in Cy.
    change (rename_label rename_map y)
      with (snd (y, rename_label rename_map y)). now apply in_map.
  - now rewrite (rename_label_other Cx), (rename_label_other Cy).
Qed.

(** A header that holds a canonical address column together with its own
    lowercase alias comes out of line 67 with that label twice. *)
Theorem alias_collision_duplicates_label hdr k a :
  In (k, a) rename_map -> In k hdr -> In a hdr ->
  ~ NoDup (map (rename_label (present_aliases hdr)) hdr).
Proof.
  intros Hka Hk Ha Hnd.
  assert (Hne : k <> a).
  { intros ->. revert Hka. unfold rename_map. cbn [In].
    intros [H|[H|[H|[H|[H|[]]]]]]; injection H as E1 E2;
      rewrite <- E2 in E1; discriminate. }
  assert (Ea : rename_label rename_map a = a).
  { apply rename_label_other. intros Hin.
    revert Hka Hin. unfold rename_map, ADDRESS_COLS. cbn [In].
    intros [H|[H|[H|[H|[H|[]]]]]]; injection H as _ <-;
      intuition discriminate. }
  assert (Hinj : forall l (f : string -> string),
             NoDup (map f l) -> forall x y, In x l -> In y l -> f x = f y -> x = y).
  { induction l as [|z l IH]; intros f Hn x y Hx Hy E; [destruct Hx|].
    simpl in Hn. inversion Hn as [|? ? Hz Hn']; subst.
    destruct Hx as [<-|Hx], Hy as [<-|Hy]; try reflexivity.
    - exfalso. apply Hz. rewrite E. now apply in_map.
    - exfalso. apply Hz. rewrite <- E. now apply in_map.
    - now apply (IH f Hn'). }
  apply Hne. apply (Hinj hdr _ Hnd k a Hk Ha).
  unfold present_aliases. rewrite !rename_label_filter.
  rewrite (proj2 (has_column_In k hdr) Hk), (proj2 (has_column_In a hdr) Ha).
  now rewrite (rename_label_alias Hka), Ea.
Qed.

(** ** Further properties: the whole run *)



Lemma in_sent a addrs :
  In a (sent addrs) -> In (Some a) addrs /\ is_blank (Some a) = false.
Proof.
  unfold sent. rewrite in_flat_map. intros ([x|] & Hx & Hin); [|destruct Hin].
  destruct (is_blank (Some x)) eqn:E; [destruct Hin|].
  destruct Hin as [<-|[]]. auto.
Qed.

Section RunFacts.

Variable float_repr : Q -> string.
Variable service : Type.
Variable geocode : string -> nat -> service -> outcome * service.

Lemma row_events_are_not_final a w :
  forall e, In e (snd (fst (geocode_row geocode a w))) ->
            (forall k t, e <> Print (Summary k t)) /\ (forall n, e <> Print (Saved n)).
Proof.
  destruct a as [a|]; cbn [geocode_row]; [|intros e []].
  destruct (PyStr.strip a =? "")%string; [intros e []|].
  destruct (geocode a 15 w) as [[lat lon| |x] w']; cbn [fst snd app In];
    intros e H; repeat destruct H as [<-|H]; try destruct H;
    split; discriminate.
Qed.

Lemma loop_events_are_not_final addrs :
  forall w e, In e (snd (fst (geocode_loop geocode addrs w))) ->
              (forall k t, e <> Print (Summary k t)) /\ (forall n, e <> Print (Saved n)).
Proof.
  induction addrs as [|a rest IH]; intros w e; [intros []|].
  rewrite geocode_loop_cons.
  pose proof (row_events_are_not_final a w) as Hrow.
  destruct (geocode_row geocode a w) as [[c ev] w1].
  specialize (IH w1).
  destruct (geocode_loop geocode rest w1) as [[cs evs] w2].
  cbn [fst snd] in *. rewrite in_app_iff. intros [H|H]; auto.
Qed.

(** [main] raises [KeyError] for the first of Address, City,
    State/Province, Country that the table lacks; with the four of them it
    raises [ValueError] at the export when the renaming of line 67 has left
    a label twice, and returns otherwise.  No other column is required. *)
Theorem main_raises_for_first_missing_column df w :
  match find (fun c => negb (has_column c (columns df))) columns_read with
  | Some c => main float_repr geocode df w = Err (KeyError c)
  | None =>
      if has_duplicates (export_header (columns df))
      then main float_repr geocode df w
           = Err (ValueError duplicated_column_names)
      else exists out ev w', main float_repr geocode df w = Ok (out, ev, w')
  end.
Proof.
  unfold columns_read. cbn [find].
  destruct (has_column "Address" (columns df)) eqn:Ha; cbn [negb];
    [|unfold main, full_address, getitem; now rewrite Ha].
  destruct (has_column "City" (columns df)) eqn:Hc; cbn [negb];
    [|unfold main, full_address, getitem; now rewrite Ha, Hc].
  destruct (has_column "State/Province" (columns df)) eqn:Hs; cbn [negb];
    [|unfold main, full_address, getitem; now rewrite Ha, Hc, Hs].
  destruct (has_column "Country" (columns df)) eqn:Hk; cbn [negb];
    [|unfold main, full_address, getitem; now rewrite Ha, Hc, Hs, Hk].
  assert (Hcols : forallb (fun c => has_column c (columns df)) columns_read
                  = true).
  { cbn [forallb columns_read]. now rewrite Ha, Hc, Hs, Hk. }
  destruct (has_duplicates (export_header (columns df))) eqn:Hdup.
  - now apply main_value_error.
  - now apply main_returns.
Qed.


(** The trace of a run holds one summary and one confirmation: the summary
    counts the features written against the rows of the table, never more
    kept than attempted, and the confirmation repeats the number of
    features. *)
Theorem summary_counts df w out ev w' :
  main float_repr geocode df w = Ok (out, ev, w') ->
  (forall kept total,
      In (Print (Summary kept total)) ev ->
      kept = List.length (features out) /\ total = len df /\ kept <= total)
  /\ (forall n, In (Print (Saved n)) ev -> n = List.length (features out)).
Proof.
  intros Hmain.
  pose proof (main_ok_columns _ _ _ _ Hmain) as Hcols.
  rewrite (main_spec float_repr geocode df w Hcols
             (main_ok_unique _ _ _ _ Hmain)) in Hmain.
  pose proof (geocode_loop_length geocode
                (map Some (map (address_line float_repr) (data df))) w) as Hlen.
  pose proof (loop_events_are_not_final
                (map Some (map (address_line float_repr) (data df))) w) as Hloop.
  destruct (geocode_loop geocode
              (map Some (map (address_line float_repr) (data df))) w)
    as [[coords loop_events] w1].
  injection Hmain as <- <- <-. cbn [fst snd features] in *.
  rewrite !length_map in Hlen. rewrite length_map.
  assert (Hle : List.length (survivors (data df) coords) <= List.length coords).
  { unfold survivors.
    etransitivity; [apply filter_length_le|].
    rewrite length_combine. lia. }
  split.
  - intros kept total Hin. cbn [app In] in Hin.
    destruct Hin as [H|[H|H]]; try discriminate.
    apply in_app_iff in H. destruct H as [H|H].
    + exfalso. exact (proj1 (Hloop _ H) kept total eq_refl).
    + destruct H as [H|[H|[]]]; [|discriminate].
      injection H as <- <-. unfold len. repeat split; lia.
  - intros n Hin. cbn [app In] in Hin.
    destruct Hin as [H|[H|H]]; try discriminate.
    apply in_app_iff in H. destruct H as [H|H].
    + exfalso. exact (proj2 (Hloop _ H) n eq_refl).
    + destruct H as [H|[H|[]]]; [discriminate|].
      now injection H as <-.
Qed.

(** Every address that a run hands to the service is the address line of a
    row of the table: it is not blank and holds no comma. *)
Theorem service_sees_address_lines df w out ev w' :
  main float_repr geocode df w = Ok (out, ev, w') ->
  forall a,
    In a (calls ev) ->
    (exists r, In r (data df) /\ a = address_line float_repr r)
    /\ is_blank (Some a) = false
    /\ ~ In ","%char (list_ascii_of_string a).
Proof.
  intros Hmain a Hin.
  pose proof (main_ok_columns _ _ _ _ Hmain) as Hcols.
  rewrite (main_spec float_repr geocode df w Hcols
             (main_ok_unique _ _ _ _ Hmain)) in Hmain.
  pose proof (loop_effects geocode
                (map Some (map (address_line float_repr) (data df))) w) as Heff.
  destruct (geocode_loop geocode
              (map Some (map (address_line float_repr) (data df))) w)
    as [[coords loop_events] w1].
  injection Hmain as <- <- <-. cbn [fst snd] in Heff.
  destruct Heff as (Hcalls & _ & _).
  unfold calls in Hin. cbn [flat_map app] in Hin.
  rewrite flat_map_app in Hin. cbn [flat_map app] in Hin.
  rewrite app_nil_r in Hin.
  fold (calls loop_events) in Hin. rewrite Hcalls in Hin.
  apply in_sent in Hin. destruct Hin as [Hin Hblank].
  rewrite map_map in Hin. apply in_map_iff in Hin.
  destruct Hin as (r & [= <-] & Hr).
  split; [eauto|]. split; [assumption|].
  unfold address_line, Regex.replace_commas_spaces. apply sub_runs_no_comma.
Qed.

End RunFacts.

(** ** The further properties on the sample tables *)

Lemma missing_field_is_geocoded_witness :
  In "City" columns_read
  /\ cell "City" Mock.missing_city_row = VNaN
  /\ is_blank (Some (address_line Mock.float_repr Mock.missing_city_row))
     = false.
Proof.
  assert (Hin : In "City" columns_read) by (simpl; auto).
  split; [exact Hin|]. split; [reflexivity|].
  exact (@missing_field_is_geocoded Mock.float_repr Mock.missing_city_row
           "City" Hin eq_refl).
Defined.

Lemma getitem_after_setitem_witness :
  List.length [VStr "lobby"] = len Mock.springfield
  /\ getitem "note" (setitem "note" [VStr "lobby"] Mock.springfield)
     = Ok [VStr "lobby"].
Proof.
  split; [reflexivity|].
  exact (@getitem_after_setitem "note" [VStr "lobby"] Mock.springfield eq_refl).
Defined.

Lemma setitem_keeps_other_columns_witness :
  "City" <> "note"
  /\ getitem "City" (setitem "note" [VStr "lobby"] Mock.springfield)
     = getitem "City" Mock.springfield.
Proof.
  assert (Hne : "City" <> "note") by discriminate.
  split; [exact Hne|].
  exact (@setitem_keeps_other_columns "note" "City" [VStr "lobby"]
           Mock.springfield Hne).
Defined.


Lemma dropna_keeps_complete_rows_witness :
  dropna ["Postal Code"] Mock.springfield = Ok Mock.springfield
  /\ len Mock.springfield <= len Mock.springfield.
Proof.
  split; [reflexivity|].
  exact (proj1 (proj2 (proj2 (proj2
           (@dropna_keeps_complete_rows ["Postal Code"] Mock.springfield
              Mock.springfield eq_refl))))).
Defined.

Lemma presence_filter_is_redundant_witness :
  rename (filter (fun kv => has_column (fst kv) (columns Mock.no_postal_code))
                 rename_map) Mock.no_postal_code
  = rename rename_map Mock.no_postal_code.
Proof.
  apply presence_filter_is_redundant.
  apply Forall_cons; [|apply Forall_nil].
  intros k v H. simpl in H.
  repeat (destruct H as [H|H]; [injection H as <- _; simpl; auto 10|]).
  destruct H.
Defined.

Lemma renamed_header_has_no_duplicates_witness :
  NoDup (map (rename_label (present_aliases ADDRESS_COLS)) ADDRESS_COLS).
Proof.
  apply renamed_header_has_no_duplicates.
  - repeat (constructor; [simpl; intuition discriminate|]). constructor.
  - simpl. intros a Ha Hin.
    repeat (destruct Ha as [<-|Ha]; [intuition discriminate|]).
    destruct Ha.
Defined.

Lemma alias_collision_duplicates_label_witness :
  ~ NoDup (map (rename_label (present_aliases ["Address"; "address"]))
               ["Address"; "address"]).
Proof.
  apply (@alias_collision_duplicates_label ["Address"; "address"]
           "Address" "address"); simpl; auto.
Defined.


Lemma summary_counts_witness :
  Mock.run Mock.springfield Mock.one_fix
  = Ok (Mock.springfield_file, Mock.springfield_trace, [])
  /\ forall n, In (Print (Saved n)) Mock.springfield_trace ->
               n = List.length (features Mock.springfield_file).
Proof.
  split; [reflexivity|].
  exact (proj2 (@summary_counts Mock.float_repr (list outcome) Mock.geocode
                  Mock.springfield Mock.one_fix
                  Mock.springfield_file Mock.springfield_trace [] eq_refl)).
Defined.

Lemma service_sees_address_lines_witness :
  Mock.run Mock.springfield Mock.one_fix
  = Ok (Mock.springfield_file, Mock.springfield_trace, [])
  /\ In "1 Main St Springfield IL USA" (calls Mock.springfield_trace)
  /\ ~ In ","%char (list_ascii_of_string "1 Main St Springfield IL USA").
Proof.
  split; [reflexivity|].
  assert (Hin : In "1 Main St Springfield IL USA" (calls Mock.springfield_trace))
    by (simpl; auto).
  split; [exact Hin|].
  exact (proj2 (proj2 (@service_sees_address_lines Mock.float_repr
                         (list outcome) Mock.geocode Mock.springfield
                         Mock.one_fix Mock.springfield_file
                         Mock.springfield_trace [] eq_refl _ Hin))).
Defined.
